(** * Order submission service: validator and submission workflow

    A shallow embedding of the two deployments of the order endpoint
    ([server.js], which notifies the administrator only, and the richer
    deployment, which also sends a confirmation to the customer), followed
    by the properties of [validateInput] and of the [POST /api/orders]
    handler.

    Layout: the definitions come first (JavaScript strings and values,
    regular expressions, the validator, the collaborators and the two
    handlers), then the lemmas and theorems. *)

From Stdlib Require Import List NArith String Ascii Bool Arith Lia.
Import ListNotations.

Set Implicit Arguments.

(* ================================================================== *)
(** * Part I: definitions *)
(* ================================================================== *)

(** ** JavaScript strings and the values a body field can hold *)

Module JS.

(** A JavaScript string is a sequence of UTF-16 code units. *)
Definition code_unit := N.
Definition jsstring := list code_unit.

(** String literals of the source, as code units. *)
Definition js (s : string) : jsstring :=
  List.map N_of_ascii (list_ascii_of_string s).

(** The endpoint receives [{name, email, phone, service, details}] with
    string fields; a field that is absent from the body destructures to
    [undefined]. *)
Inductive value :=
| undefined
| Str (s : jsstring).

(** [!x] is [negb (truthy x)]: [undefined] and the empty string are the
    falsy values of this type. *)
Definition truthy (v : value) : bool :=
  match v with
  | undefined => false
  | Str [] => false
  | Str (_ :: _) => true
  end.

(** The string conversion [RegExp.prototype.test] applies to its argument. *)
Definition ToString (v : value) : jsstring :=
  match v with
  | undefined => js "undefined"
  | Str s => s
  end.

End JS.
Import JS.

(** ** Regular expressions *)

Module RegExp.

(** Pattern syntax. Character classes are predicates on code units (the
    patterns of the source carry no [i], [m] or [u] flag, so a class is
    tested against one code unit at a time). *)
Inductive regex :=
| Void
| Eps
| Class (p : code_unit -> bool)
| Seq (r1 r2 : regex)
| Alt (r1 r2 : regex)
| Star (r : regex).

(** [r+], [r?], [r{n}], [r{0,k}] and [r{lo,hi}]. *)
Definition Plus (r : regex) : regex := Seq r (Star r).
Definition Opt (r : regex) : regex := Alt Eps r.

Fixpoint Exactly (n : nat) (r : regex) : regex :=
  match n with
  | O => Eps
  | S n' => Seq r (Exactly n' r)
  end.

Fixpoint AtMost (k : nat) (r : regex) : regex :=
  match k with
  | O => Eps
  | S k' => Opt (Seq r (AtMost k' r))
  end.

Definition Repeat (lo hi : nat) (r : regex) : regex :=
  Seq (Exactly lo r) (AtMost (hi - lo) r).

(** *** Character classes *)

Definition between (lo hi : N) (c : code_unit) : bool :=
  (lo <=? c)%N && (c <=? hi)%N.

Definition is_char (a : ascii) (c : code_unit) : bool :=
  (c =? N_of_ascii a)%N.

Definition Chr (a : ascii) : regex := Class (is_char a).

(** [\d] is [0-9]. *)
Definition digit (c : code_unit) : bool := between 48 57 c.

(** [a-zA-Z]. *)
Definition lower (c : code_unit) : bool := between 97 122 c.
Definition upper (c : code_unit) : bool := between 65 90 c.
Definition letter (c : code_unit) : bool := lower c || upper c.

(** [\s]: the WhiteSpace and LineTerminator code points of ECMAScript:
    TAB, LF, VT, FF, CR, SPACE, NBSP, U+1680, U+2000..U+200A, U+2028,
    U+2029, U+202F, U+205F, U+3000 and U+FEFF. *)
Definition whitespace (c : code_unit) : bool :=
  between 9 13 c
  || (c =? 32)%N
  || (c =? 160)%N
  || (c =? 5760)%N
  || between 8192 8202 c
  || (c =? 8232)%N
  || (c =? 8233)%N
  || (c =? 8239)%N
  || (c =? 8287)%N
  || (c =? 12288)%N
  || (c =? 65279)%N.

(** *** Matching by derivatives *)

Fixpoint nullable (r : regex) : bool :=
  match r with
  | Void => false
  | Eps => true
  | Class _ => false
  | Seq r1 r2 => nullable r1 && nullable r2
  | Alt r1 r2 => nullable r1 || nullable r2
  | Star _ => true
  end.

Fixpoint deriv (c : code_unit) (r : regex) : regex :=
  match r with
  | Void => Void
  | Eps => Void
  | Class p => if p c then Eps else Void
  | Seq r1 r2 =>
      if nullable r1
      then Alt (Seq (deriv c r1) r2) (deriv c r2)
      else Seq (deriv c r1) r2
  | Alt r1 r2 => Alt (deriv c r1) (deriv c r2)
  | Star r1 => Seq (deriv c r1) (Star r1)
  end.

(** [/^r$/.test(s)]: with both anchors and no flags, the test succeeds
    exactly when the whole of [s] is a word of [r]. *)
Fixpoint test (r : regex) (s : jsstring) : bool :=
  match s with
  | [] => nullable r
  | c :: s' => test (deriv c r) s'
  end.

(** [s.replace(/[cls]/g, rep)] for a pattern that is a single character
    class: every code unit of the class is replaced by [rep], scanning
    from the left. *)
Fixpoint replace_g (cls : code_unit -> bool) (rep s : jsstring) : jsstring :=
  match s with
  | [] => []
  | c :: s' =>
      if cls c then rep ++ replace_g cls rep s'
      else c :: replace_g cls rep s'
  end.

(** The words of a pattern, as a relation: the reference semantics the
    derivative matcher is proved against. *)
Inductive Matches : regex -> jsstring -> Prop :=
| MEps : Matches Eps []
| MClass (p : code_unit -> bool) c : p c = true -> Matches (Class p) [c]
| MSeq r1 r2 s1 s2 :
    Matches r1 s1 -> Matches r2 s2 -> Matches (Seq r1 r2) (s1 ++ s2)
| MAltL r1 r2 s : Matches r1 s -> Matches (Alt r1 r2) s
| MAltR r1 r2 s : Matches r2 s -> Matches (Alt r1 r2) s
| MStarNil r : Matches (Star r) []
| MStarApp r s1 s2 :
    Matches r s1 -> Matches (Star r) s2 -> Matches (Star r) (s1 ++ s2).

End RegExp.
Import RegExp.

(** ** The validator *)

Module Validator.

(** The request body, destructured. *)
Record submission := {
  name : value;
  email : value;
  phone : value;
  service : value;
  details : value
}.

(** [{ isValid: true }] or [{ isValid: false, error }]. *)
Inductive validation :=
| Valid
| Invalid (error : string).

Definition msg_required : string := "All fields are required.".
Definition msg_name : string := "Name must contain only letters and spaces.".
Definition msg_email : string := "Invalid email format.".
Definition msg_phone : string := "Invalid phone number.".

(** [/^[a-zA-Z\s]+$/] *)
Definition name_class (c : code_unit) : bool := letter c || whitespace c.
Definition name_re : regex := Plus (Class name_class).

(** [/^[^\s@]+@[^\s@]+\.[^\s@]+$/] *)
Definition email_class (c : code_unit) : bool :=
  negb (whitespace c || is_char "@" c).
Definition email_re : regex :=
  Seq (Plus (Class email_class))
    (Seq (Chr "@")
       (Seq (Plus (Class email_class))
          (Seq (Chr ".") (Plus (Class email_class))))).

(** [/^\+?\d{10,15}$/] *)
Definition phone_re : regex :=
  Seq (Opt (Chr "+")) (Repeat 10 15 (Class digit)).

(** [/[-()\s]/g] *)
Definition strip_class (c : code_unit) : bool :=
  is_char "-" c || is_char "(" c || is_char ")" c || whitespace c.

(** [phone.replace(/[-()\s]/g, '')]. The call is reached only after the
    presence test, where [phone] is a non-empty string. *)
Definition stripped (phone : value) : jsstring :=
  replace_g strip_class [] (ToString phone).

Definition validateInput (data : submission) : validation :=
  let '(Build_submission name email phone service details) := data in
  if negb (truthy name) || negb (truthy email) || negb (truthy phone)
     || negb (truthy service) || negb (truthy details)
  then Invalid msg_required
  else if negb (test name_re (ToString name))
  then Invalid msg_name
  else if negb (test email_re (ToString email))
  then Invalid msg_email
  else if negb (test phone_re (stripped phone))
  then Invalid msg_phone
  else Valid.

End Validator.
Import Validator.

(** ** The validation rules as the specification words them

    These definitions follow the wording of the specification, not the
    code; the theorems of Part II compare [validateInput] with them. *)

Module Rules.

Definition char (a : ascii) : code_unit := N_of_ascii a.

(** A field is non-empty: it is there and holds at least one character. *)
Definition non_empty (v : value) : Prop :=
  exists c s, v = Str (c :: s).

(** A format rule speaks about the text of a field that is there. *)
Definition on_text (P : jsstring -> Prop) (v : value) : Prop :=
  exists s, v = Str s /\ P s.

(** A field is missing or empty. *)
Definition missing_or_empty (v : value) : Prop :=
  v = undefined \/ v = Str [].

(** Presence: all five fields must be non-empty. *)
Definition all_present (d : submission) : Prop :=
  non_empty (name d) /\ non_empty (email d) /\ non_empty (phone d)
  /\ non_empty (service d) /\ non_empty (details d).

(** Name format: one or more characters, each a letter (A-Z, a-z) or a
    whitespace character, entire string. *)
Definition letter_or_space (c : code_unit) : Prop :=
  letter c = true \/ whitespace c = true.

Definition name_format (s : jsstring) : Prop :=
  s <> [] /\ Forall letter_or_space s.

(** Email format: one or more non-space non-[@] characters, [@], one or
    more non-space non-[@] characters, [.], one or more non-space
    non-[@] characters. *)
Definition plain (c : code_unit) : Prop :=
  whitespace c = false /\ c <> char "@".

Definition plain_run (s : jsstring) : Prop :=
  s <> [] /\ Forall plain s.

Definition email_format (s : jsstring) : Prop :=
  exists l d t,
    s = l ++ char "@" :: d ++ char "." :: t
    /\ plain_run l /\ plain_run d /\ plain_run t.

(** Phone format: after stripping hyphens, parentheses and whitespace
    characters, an optional leading [+] followed by 10 to 15 digits. *)
Definition strippable (c : code_unit) : bool :=
  (c =? char "-")%N || (c =? char "(")%N || (c =? char ")")%N
  || whitespace c.

Definition strip (s : jsstring) : jsstring :=
  filter (fun c => negb (strippable c)) s.

Definition digits_10_15 (ds : jsstring) : Prop :=
  10 <= List.length ds <= 15 /\ Forall (fun c => digit c = true) ds.

Definition phone_format (s : jsstring) : Prop :=
  digits_10_15 (strip s)
  \/ exists ds, strip s = char "+" :: ds /\ digits_10_15 ds.

(** The four rules, in the order they are checked, each with the reason
    it fails with. *)
Record rule := {
  holds : submission -> Prop;
  reason : string
}.

Definition rules : list rule :=
  [ {| holds := all_present;
       reason := "All fields are required." |};
    {| holds := fun d => on_text name_format (name d);
       reason := "Name must contain only letters and spaces." |};
    {| holds := fun d => on_text email_format (email d);
       reason := "Invalid email format." |};
    {| holds := fun d => on_text phone_format (phone d);
       reason := "Invalid phone number." |} ].

(** Checking in order and stopping at the first failure: [Some m] is the
    reason of the first rule that does not hold, [None] says that every
    rule holds. *)
Inductive first_violation (d : submission) : list rule -> option string -> Prop :=
| fv_none : first_violation d [] None
| fv_here r rs : ~ holds r d -> first_violation d (r :: rs) (Some (reason r))
| fv_later r rs o :
    holds r d -> first_violation d rs o -> first_violation d (r :: rs) o.

(** What a validation result reports. *)
Definition reported (v : validation) : option string :=
  match v with
  | Valid => None
  | Invalid m => Some m
  end.

(** ASCII punctuation and symbols: [!] to [/], [:] to [@], [[] to the
    backquote, [{] to [~]. *)
Definition punctuation (c : code_unit) : bool :=
  between 33 47 c || between 58 64 c || between 91 96 c || between 123 126 c.

(** A non-empty string of whitespace characters only. *)
Definition blank (s : jsstring) : Prop :=
  s <> [] /\ Forall (fun c => whitespace c = true) s.

End Rules.
Import Rules.

(** ** The collaborators and the two handlers *)

Module Workflow.

(** The five bound parameters of the [INSERT] statement. *)
Record order_params := {
  p_name : jsstring;
  p_email : jsstring;
  p_phone : jsstring;
  p_service : jsstring;
  p_details : jsstring
}.

(** The [orders] table: [id INTEGER PRIMARY KEY AUTOINCREMENT], the five
    text columns and [created_at DATETIME DEFAULT CURRENT_TIMESTAMP]. *)
Record row := {
  row_id : N;
  row_fields : order_params;
  row_created_at : jsstring
}.

Record database := {
  rows : list row;
  last_id : N
}.

Record mailOptions := {
  from : value;
  to : jsstring;
  subject : string;
  text : jsstring
}.

(** [res.status(code).json({ error })] or [res.status(code).json({ message })]. *)
Inductive body :=
| ErrorBody (error : string)
| MessageBody (message : string).

Record response := {
  status : N;
  payload : body
}.

(** What a request does, in order. The detail arguments of the log
    calls other than an error's message are left out. *)
Inductive event :=
| ConsoleLog (label : string)
| ConsoleError (label : string) (message : string)
| DbRun (params : order_params)
| SendMail (m : mailOptions)
| Respond (r : response).

(** What the collaborators answer during one request: the error handed
    to each callback ([None] for success), the store's clock, the
    server's clock, and which of the two mail callbacks of the richer
    deployment fires first. The simpler deployment never consults the
    customer fields. *)
Record env := {
  db_error : option string;
  db_clock : jsstring;
  admin_error : option string;
  customer_error : option string;
  now_iso : jsstring;
  customer_first : bool
}.

(** A handler threads the database and emits events. *)
Definition M (A : Type) : Type := database -> A * database * list event.

Definition ret {A} (a : A) : M A := fun db => (a, db, []).

Definition bind {A B} (m : M A) (k : A -> M B) : M B :=
  fun db =>
    let '(a, db1, evs1) := m db in
    let '(b, db2, evs2) := k a db1 in
    (b, db2, evs1 ++ evs2).

Definition emit (ev : event) : M unit := fun db => (tt, db, [ev]).

Declare Scope handler_scope.
Delimit Scope handler_scope with handler.
Notation "x <- m ;; k" := (bind m (fun x => k))
  (at level 61, m at next level, right associativity) : handler_scope.
Notation "m ;; k" := (bind m (fun _ => k))
  (at level 61, right associativity) : handler_scope.
Local Open Scope handler_scope.

Definition console_log (label : string) : M unit := emit (ConsoleLog label).
Definition console_error (label message : string) : M unit :=
  emit (ConsoleError label message).
Definition res_json (code : N) (b : body) : M unit :=
  emit (Respond {| status := code; payload := b |}).

(** [db.run(INSERT ..., params, callback)]: on success the store appends
    one row under a fresh id; on failure it stores nothing. The callback
    receives the error. *)
Definition db_run (params : order_params) (outcome : option string)
    (clock : jsstring) : M (option string) :=
  fun db =>
    match outcome with
    | Some message => (Some message, db, [DbRun params])
    | None =>
        let id := N.succ (last_id db) in
        (None,
         {| rows := rows db ++ [{| row_id := id;
                                   row_fields := params;
                                   row_created_at := clock |}];
            last_id := id |},
         [DbRun params])
    end.

(** [transporter.sendMail(options, callback)]: one attempt, whose error
    (if any) is handed to the callback. *)
Definition sendMail (options : mailOptions) (outcome : option string)
    : M (option string) :=
  fun db => (outcome, db, [SendMail options]).

(** The template literals of the mail bodies. *)
Definition nl : jsstring := [10%N].
Definition indent (n : nat) : jsstring := repeat 32%N n.
Definition line (s : jsstring) : jsstring := indent 20 ++ s ++ nl.

Definition admin_address : jsstring := js "trekuray@gmail.com".

Definition admin_text (p : order_params) (timestamp : jsstring) : jsstring :=
  nl
  ++ line (js "New Order Received:")
  ++ line (js "Name: " ++ p_name p)
  ++ line (js "Email: " ++ p_email p)
  ++ line (js "Phone: " ++ p_phone p)
  ++ line (js "Service: " ++ p_service p)
  ++ line (js "Details: " ++ p_details p)
  ++ line (js "Timestamp: " ++ timestamp)
  ++ indent 16.

Definition customer_text (p : order_params) : jsstring :=
  nl
  ++ line (js "Dear " ++ p_name p ++ js ",")
  ++ nl
  ++ line (js "Thank you for your order with Dziquist Transport and Logistics!")
  ++ line (js "Order Details:")
  ++ line (js "- Service: " ++ p_service p)
  ++ line (js "- Details: " ++ p_details p)
  ++ line (js "- Phone: " ++ p_phone p)
  ++ nl
  ++ line (js "We will contact you shortly to confirm. For any queries, reply to this email or call us.")
  ++ nl
  ++ line (js "Best,")
  ++ line (js "Dziquist Transport Team")
  ++ indent 16.

Definition msg_save_failed : string := "Failed to save order.".
Definition msg_submitted : string := "Order submitted successfully!".
Definition msg_email_failed : string := "Order saved, but failed to send email.".
Definition msg_customer_failed : string :=
  "Order saved, but failed to send customer confirmation.".

Section Handlers.

(** The [sanitize-html] package and the configured mail account are
    given from outside the repository. *)
Variable sanitizeHtml : value -> jsstring.
Variable emailUser : value.

Definition sanitized (data : submission) : order_params :=
  {| p_name := sanitizeHtml (name data);
     p_email := sanitizeHtml (email data);
     p_phone := sanitizeHtml (phone data);
     p_service := sanitizeHtml (service data);
     p_details := sanitizeHtml (details data) |}.

Definition mailOptionsAdmin (p : order_params) (timestamp : jsstring)
    : mailOptions :=
  {| from := emailUser;
     to := admin_address;
     subject := "New Order from Dziquist Website";
     text := admin_text p timestamp |}.

Definition mailOptionsCustomer (p : order_params) : mailOptions :=
  {| from := emailUser;
     to := p_email p;
     subject := "Order Confirmation - Dziquist Transport";
     text := customer_text p |}.

(** [app.post('/api/orders', ...)] of [server.js]: the administrator is
    notified, and the response is sent from that mail's callback. *)
Definition post_orders_admin_only (e : env) (data : submission) : M unit :=
  console_log "Received POST request:" ;;
  match validateInput data with
  | Invalid error => res_json 400 (ErrorBody error)
  | Valid =>
      let p := sanitized data in
      err <- db_run p (db_error e) (db_clock e) ;;
      match err with
      | Some message =>
          console_error "Database insert error:" message ;;
          res_json 500 (ErrorBody msg_save_failed)
      | None =>
          error <- sendMail (mailOptionsAdmin p (now_iso e)) (admin_error e) ;;
          match error with
          | Some message =>
              console_error "Email sending error:" message ;;
              res_json 200 (MessageBody msg_email_failed)
          | None =>
              console_log "Email sent successfully:" ;;
              res_json 200 (MessageBody msg_submitted)
          end
      end
  end.

(** The handler of the richer deployment: both mails are dispatched,
    the administrator's callback only logs, and the response is sent
    from the customer mail's callback. *)
Definition post_orders_with_customer (e : env) (data : submission) : M unit :=
  console_log "Received POST request:" ;;
  match validateInput data with
  | Invalid error => res_json 400 (ErrorBody error)
  | Valid =>
      let p := sanitized data in
      err <- db_run p (db_error e) (db_clock e) ;;
      match err with
      | Some message =>
          console_error "Database insert error:" message ;;
          res_json 500 (ErrorBody msg_save_failed)
      | None =>
          admin <- sendMail (mailOptionsAdmin p (now_iso e)) (admin_error e) ;;
          customer <- sendMail (mailOptionsCustomer p) (customer_error e) ;;
          let admin_callback :=
            match admin with
            | Some message =>
                console_error "Admin email sending error:" message
            | None => ret tt
            end in
          let customer_callback :=
            match customer with
            | Some message =>
                console_error "Customer email sending error:" message ;;
                res_json 200 (MessageBody msg_customer_failed)
            | None =>
                console_log "Customer email sent successfully" ;;
                res_json 200 (MessageBody msg_submitted)
            end in
          if customer_first e
          then customer_callback ;; admin_callback
          else admin_callback ;; customer_callback
      end
  end.

(** The two deployments. *)
Inductive deployment := AdminOnly | WithCustomer.

Definition post_orders (v : deployment) : env -> submission -> M unit :=
  match v with
  | AdminOnly => post_orders_admin_only
  | WithCustomer => post_orders_with_customer
  end.

End Handlers.

(** Observations on one handled request. *)
Definition events_of (m : M unit) (db : database) : list event :=
  snd (m db).
Definition database_after (m : M unit) (db : database) : database :=
  snd (fst (m db)).

Definition responses (evs : list event) : list response :=
  flat_map (fun ev => match ev with Respond r => [r] | _ => [] end) evs.
Definition inserts (evs : list event) : list order_params :=
  flat_map (fun ev => match ev with DbRun p => [p] | _ => [] end) evs.
Definition mails (evs : list event) : list mailOptions :=
  flat_map (fun ev => match ev with SendMail m => [m] | _ => [] end) evs.

(** The same collaborators, with another answer to the administrator's
    mail. *)
Definition with_admin_error (e : env) (a : option string) : env :=
  {| db_error := db_error e;
     db_clock := db_clock e;
     admin_error := a;
     customer_error := customer_error e;
     now_iso := now_iso e;
     customer_first := customer_first e |}.

(** Names for the pieces of a run: the first log line, the row a
    successful insert appends and the database it leaves, and the events
    of the two mail callbacks of the richer deployment. *)
Definition received : event := ConsoleLog "Received POST request:".

Definition new_row (e : env) (p : order_params) (db : database) : row :=
  {| row_id := N.succ (last_id db);
     row_fields := p;
     row_created_at := db_clock e |}.

Definition grown (e : env) (p : order_params) (db : database) : database :=
  {| rows := rows db ++ [new_row e p db];
     last_id := N.succ (last_id db) |}.

Definition admin_log (e : env) : list event :=
  match admin_error e with
  | Some message => [ConsoleError "Admin email sending error:" message]
  | None => []
  end.

Definition customer_outcome (e : env) : list event :=
  match customer_error e with
  | Some message =>
      [ConsoleError "Customer email sending error:" message;
       Respond {| status := 200;
                  payload := MessageBody msg_customer_failed |}]
  | None =>
      [ConsoleLog "Customer email sent successfully";
       Respond {| status := 200; payload := MessageBody msg_submitted |}]
  end.

(** The messages written with [console.error] during a request, and the
    message of a collaborator's error, if it failed. *)
Definition error_logs (evs : list event) : list string :=
  flat_map (fun ev => match ev with ConsoleError _ m => [m] | _ => [] end) evs.

Definition occurred (outcome : option string) : list string :=
  match outcome with
  | Some message => [message]
  | None => []
  end.

End Workflow.
Import Workflow.

(** ** Concrete data to run the model on *)

Module Samples.

(** A sanitizer to run the handlers with: it escapes the four markup
    characters and leaves every other code unit alone. It stands in for
    the package in the worked examples only; no theorem depends on it. *)
Definition escape_unit (c : code_unit) : jsstring :=
  if is_char "&" c then js "&amp;"
  else if is_char "<" c then js "&lt;"
  else if is_char ">" c then js "&gt;"
  else if (c =? 34)%N then js "&quot;"
  else [c].

Definition escape_markup (v : value) : jsstring :=
  flat_map escape_unit (ToString v).

Definition jane : submission :=
  {| name := Str (js "Jane Doe");
     email := Str (js "jane@example.com");
     phone := Str (js "555-123-4567");
     service := Str (js "Moving");
     details := Str (js "3 boxes") |}.

Definition not_an_email : submission :=
  {| name := Str (js "Jane Doe");
     email := Str (js "not-an-email");
     phone := Str (js "555-123-4567");
     service := Str (js "Moving");
     details := Str (js "3 boxes") |}.

Definition blank_details : submission :=
  {| name := Str (js "Jane Doe");
     email := Str (js "jane@example.com");
     phone := Str (js "(555) 123-4567");
     service := Str (js " ");
     details := Str (js "  ") |}.

Definition account : value := Str (js "orders@example.com").

Definition empty_db : database := {| rows := []; last_id := 0 |}.

Definition all_fine : env :=
  {| db_error := None;
     db_clock := js "2024-01-01 00:00:00";
     admin_error := None;
     customer_error := None;
     now_iso := js "2024-01-01T00:00:00.000Z";
     customer_first := false |}.

Definition admin_down : env := with_admin_error all_fine (Some "ETIMEDOUT"%string).

Definition customer_down : env :=
  {| db_error := None;
     db_clock := js "2024-01-01 00:00:00";
     admin_error := None;
     customer_error := Some "EENVELOPE"%string;
     now_iso := js "2024-01-01T00:00:00.000Z";
     customer_first := false |}.

Definition store_down : env :=
  {| db_error := Some "SQLITE_BUSY"%string;
     db_clock := js "2024-01-01 00:00:00";
     admin_error := None;
     customer_error := None;
     now_iso := js "2024-01-01T00:00:00.000Z";
     customer_first := false |}.

End Samples.
Import Samples.

(* ================================================================== *)
(** * Part II: lemmas and theorems *)
(* ================================================================== *)

(** ** The derivative matcher computes the words of a pattern *)

Module RegExpFacts.

Lemma Matches_nil_nullable r : Matches r [] -> nullable r = true.
Proof.
  intros H. remember [] as w eqn:Hw.
  induction H; simpl; auto; try discriminate.
  - apply app_eq_nil in Hw as [-> ->].
    rewrite IHMatches1, IHMatches2; auto.
  - rewrite IHMatches; auto.
  - rewrite IHMatches; auto using orb_true_r.
Qed.

Lemma nullable_Matches_nil r : nullable r = true -> Matches r [].
Proof.
  induction r; simpl; intros H; try discriminate.
  - constructor.
  - apply andb_true_iff in H as [H1 H2].
    apply (@MSeq r1 r2 [] []); auto.
  - apply orb_true_iff in H as [H | H]; [apply MAltL | apply MAltR]; auto.
  - constructor.
Qed.

Lemma Matches_deriv c r s : Matches r (c :: s) -> Matches (deriv c r) s.
Proof.
  intros H. remember (c :: s) as w eqn:Hw. revert c s Hw.
  induction H; intros c0 s0 Hw; try discriminate.
  - injection Hw as Hc Hs. subst. simpl. rewrite H. constructor.
  - simpl. destruct s1 as [| c1 s1'].
    + simpl in Hw. subst s2.
      rewrite (Matches_nil_nullable H).
      apply MAltR. apply IHMatches2. reflexivity.
    + simpl in Hw. injection Hw as Hc Hs. subst.
      assert (Hs : Matches (Seq (deriv c0 r1) r2) (s1' ++ s2)).
      { constructor; auto. }
      destruct (nullable r1); [apply MAltL |]; exact Hs.
  - simpl. apply MAltL. auto.
  - simpl. apply MAltR. auto.
  - destruct s1 as [| c1 s1'].
    + simpl in Hw. apply IHMatches2. exact Hw.
    + simpl in Hw. injection Hw as Hc Hs. subst.
      simpl. constructor; auto.
Qed.

Lemma deriv_Matches c r : forall s, Matches (deriv c r) s -> Matches r (c :: s).
Proof.
  induction r; simpl; intros s H.
  - inversion H.
  - inversion H.
  - destruct (p c) eqn:Hp; inversion H; subst. constructor. exact Hp.
  - destruct (nullable r1) eqn:Hn.
    + inversion H as [| | | ? ? ? H' | ? ? ? H' | |]; subst.
      * inversion H'; subst.
        change (c :: s1 ++ s2) with ((c :: s1) ++ s2).
        constructor; auto.
      * change (c :: s) with ([] ++ c :: s).
        constructor; auto using nullable_Matches_nil.
    + inversion H; subst.
      change (c :: s1 ++ s2) with ((c :: s1) ++ s2).
      constructor; auto.
  - inversion H; subst; [apply MAltL | apply MAltR]; auto.
  - inversion H; subst.
    change (c :: s1 ++ s2) with ((c :: s1) ++ s2).
    constructor; auto.
Qed.

(** The matcher decides membership. *)
Lemma test_Matches r s : test r s = true <-> Matches r s.
Proof.
  revert r. induction s as [| c s IH]; intros r; simpl.
  - split; [apply nullable_Matches_nil | apply Matches_nil_nullable].
  - rewrite IH. split; [apply deriv_Matches | apply Matches_deriv].
Qed.

(** *** Inversion of the pattern formers *)

Lemma Matches_Seq r1 r2 s :
  Matches (Seq r1 r2) s <->
  exists s1 s2, s = s1 ++ s2 /\ Matches r1 s1 /\ Matches r2 s2.
Proof.
  split.
  - intros H. inversion H; subst. eauto.
  - intros (s1 & s2 & -> & H1 & H2). constructor; auto.
Qed.

Lemma Matches_Class p s :
  Matches (Class p) s <-> exists c, s = [c] /\ p c = true.
Proof.
  split.
  - intros H. inversion H; subst. eauto.
  - intros (c & -> & Hc). constructor. exact Hc.
Qed.

Lemma Matches_Chr a s : Matches (Chr a) s <-> s = [N_of_ascii a].
Proof.
  unfold Chr. rewrite Matches_Class. unfold is_char. split.
  - intros (c & -> & Hc). apply N.eqb_eq in Hc. subst. reflexivity.
  - intros ->. eexists. split; [reflexivity | apply N.eqb_refl].
Qed.

Lemma Matches_Opt r s : Matches (Opt r) s <-> s = [] \/ Matches r s.
Proof.
  unfold Opt. split.
  - intros H. inversion H as [| | | ? ? ? H' | ? ? ? H' | |]; subst; auto.
    inversion H'. auto.
  - intros [-> | H]; [apply MAltL; constructor | apply MAltR; exact H].
Qed.

Lemma Matches_Star_Class p s :
  Matches (Star (Class p)) s <-> forallb p s = true.
Proof.
  split.
  - intros H. remember (Star (Class p)) as r eqn:Hr.
    induction H; try discriminate; auto.
    injection Hr as ->.
    apply Matches_Class in H as (c & -> & Hc). simpl.
    rewrite Hc. apply IHMatches2. reflexivity.
  - induction s as [| c s IH]; simpl; intros H.
    + constructor.
    + apply andb_true_iff in H as [Hc Hs].
      change (c :: s) with ([c] ++ s).
      constructor; [constructor; exact Hc | auto].
Qed.

Lemma Matches_Plus_Class p s :
  Matches (Plus (Class p)) s <-> s <> [] /\ forallb p s = true.
Proof.
  unfold Plus. rewrite Matches_Seq. split.
  - intros (s1 & s2 & -> & H1 & H2).
    apply Matches_Class in H1 as (c & -> & Hc).
    apply Matches_Star_Class in H2. simpl.
    rewrite Hc, H2. split; [discriminate | reflexivity].
  - intros [Hne H]. destruct s as [| c s]; [contradiction |].
    simpl in H. apply andb_true_iff in H as [Hc Hs].
    exists [c], s. repeat split.
    + constructor. exact Hc.
    + apply Matches_Star_Class. exact Hs.
Qed.

Lemma Matches_Exactly_Class p n :
  forall s, Matches (Exactly n (Class p)) s <->
            List.length s = n /\ forallb p s = true.
Proof.
  induction n as [| n IH]; intros s; simpl.
  - split.
    + intros H. inversion H. auto.
    + intros [H _]. apply length_zero_iff_nil in H as ->. constructor.
  - rewrite Matches_Seq. split.
    + intros (s1 & s2 & -> & H1 & H2).
      apply Matches_Class in H1 as (c & -> & Hc).
      apply IH in H2 as [Hl Hs]. simpl. rewrite Hc, Hs, Hl. auto.
    + intros [Hl H]. destruct s as [| c s]; [discriminate |].
      simpl in *. apply andb_true_iff in H as [Hc Hs].
      exists [c], s. repeat split.
      * constructor. exact Hc.
      * apply IH. split; [lia | exact Hs].
Qed.

Lemma Matches_AtMost_Class p k :
  forall s, Matches (AtMost k (Class p)) s <->
            List.length s <= k /\ forallb p s = true.
Proof.
  induction k as [| k IH]; intros s; simpl.
  - split.
    + intros H. inversion H. auto.
    + intros [H _]. destruct s; [constructor | simpl in H; lia].
  - rewrite Matches_Opt, Matches_Seq. split.
    + intros [-> | (s1 & s2 & -> & H1 & H2)].
      * simpl. split; [lia | reflexivity].
      * apply Matches_Class in H1 as (c & -> & Hc).
        apply IH in H2 as [Hl Hs]. simpl. rewrite Hc, Hs.
        split; [lia | reflexivity].
    + intros [Hl H]. destruct s as [| c s]; [left; reflexivity | right].
      simpl in *. apply andb_true_iff in H as [Hc Hs].
      exists [c], s. repeat split.
      * constructor. exact Hc.
      * apply IH. split; [lia | exact Hs].
Qed.

Lemma forallb_firstn {A} (p : A -> bool) n :
  forall s, forallb p s = true -> forallb p (firstn n s) = true.
Proof.
  induction n as [| n IH]; intros [| c s]; simpl; auto.
  intros H. apply andb_true_iff in H as [Hc Hs]. rewrite Hc. simpl. auto.
Qed.

Lemma forallb_skipn {A} (p : A -> bool) n :
  forall s, forallb p s = true -> forallb p (skipn n s) = true.
Proof.
  induction n as [| n IH]; intros [| c s]; simpl; auto.
  intros H. apply andb_true_iff in H as [Hc Hs]. auto.
Qed.

Lemma Matches_Repeat_Class p lo hi s :
  lo <= hi ->
  (Matches (Repeat lo hi (Class p)) s <->
   (lo <= List.length s <= hi) /\ forallb p s = true).
Proof.
  intros Hle. unfold Repeat. rewrite Matches_Seq. split.
  - intros (s1 & s2 & -> & H1 & H2).
    apply Matches_Exactly_Class in H1 as [Hl1 Hs1].
    apply Matches_AtMost_Class in H2 as [Hl2 Hs2].
    rewrite length_app, forallb_app, Hs1, Hs2. split; [lia | reflexivity].
  - intros [Hl Hs]. exists (firstn lo s), (skipn lo s). repeat split.
    + symmetry. apply firstn_skipn.
    + apply Matches_Exactly_Class. split.
      * rewrite length_firstn. lia.
      * apply forallb_firstn. exact Hs.
    + apply Matches_AtMost_Class. split.
      * rewrite length_skipn. lia.
      * apply forallb_skipn. exact Hs.
Qed.

(** A global replacement by the empty string deletes the class. *)
Lemma replace_g_nil cls s :
  replace_g cls [] s = filter (fun c => negb (cls c)) s.
Proof.
  induction s as [| c s IH]; simpl; auto.
  destruct (cls c); simpl; rewrite IH; reflexivity.
Qed.

End RegExpFacts.
Import RegExpFacts.

(** ** The tests of [validateInput] against the rules *)

Module ValidatorFacts.

Lemma truthy_non_empty v : truthy v = true <-> non_empty v.
Proof.
  unfold non_empty. split.
  - destruct v as [| [| c s]]; simpl; try discriminate. eauto.
  - intros (c & s & ->). reflexivity.
Qed.

Lemma forallb_Forall {A} (p : A -> bool) (P : A -> Prop) :
  (forall c, p c = true <-> P c) ->
  forall s, forallb p s = true <-> Forall P s.
Proof.
  intros Hp s. rewrite forallb_forall, Forall_forall.
  split; intros H c Hc; apply Hp; auto.
Qed.

Lemma name_class_spec c : name_class c = true <-> letter_or_space c.
Proof. unfold name_class, letter_or_space. apply orb_true_iff. Qed.

Lemma email_class_spec c : email_class c = true <-> plain c.
Proof.
  unfold email_class, plain, is_char, char.
  rewrite negb_true_iff, orb_false_iff, N.eqb_neq. reflexivity.
Qed.

(** [/^[a-zA-Z\s]+$/] accepts exactly the names of the name rule. *)
Lemma test_name_re s : test name_re s = true <-> name_format s.
Proof.
  unfold name_re, name_format.
  rewrite test_Matches, Matches_Plus_Class.
  rewrite (@forallb_Forall _ _ _ name_class_spec). reflexivity.
Qed.

Lemma plain_run_spec s :
  Matches (Plus (Class email_class)) s <-> plain_run s.
Proof.
  unfold plain_run. rewrite Matches_Plus_Class.
  rewrite (@forallb_Forall _ _ _ email_class_spec). reflexivity.
Qed.

(** [/^[^\s@]+@[^\s@]+\.[^\s@]+$/] accepts exactly the addresses of the
    email rule. *)
Lemma test_email_re s : test email_re s = true <-> email_format s.
Proof.
  unfold email_re, email_format. rewrite test_Matches. split.
  - intros H.
    apply Matches_Seq in H as (l & r1 & -> & Hl & H).
    apply Matches_Seq in H as (a & r2 & -> & Ha & H).
    apply Matches_Seq in H as (d & r3 & -> & Hd & H).
    apply Matches_Seq in H as (o & t & -> & Ho & Ht).
    apply Matches_Chr in Ha as ->. apply Matches_Chr in Ho as ->.
    exists l, d, t. rewrite <- !plain_run_spec. auto.
  - intros (l & d & t & -> & Hl & Hd & Ht).
    rewrite <- plain_run_spec in Hl, Hd, Ht.
    apply Matches_Seq. exists l, (char "@" :: d ++ char "." :: t).
    repeat split; auto.
    apply Matches_Seq. exists [char "@"], (d ++ char "." :: t).
    repeat split; [apply Matches_Chr; reflexivity |].
    apply Matches_Seq. exists d, (char "." :: t).
    repeat split; auto.
    apply Matches_Seq. exists [char "."], t.
    repeat split; [apply Matches_Chr; reflexivity | auto].
Qed.

Lemma stripped_strip s : stripped (Str s) = strip s.
Proof. unfold stripped, strip. simpl. apply replace_g_nil. Qed.

Lemma digits_spec ds :
  Matches (Repeat 10 15 (Class digit)) ds <-> digits_10_15 ds.
Proof.
  unfold digits_10_15. rewrite Matches_Repeat_Class by lia.
  rewrite (@forallb_Forall _ digit (fun c => digit c = true)).
  - reflexivity.
  - intros c. reflexivity.
Qed.

Lemma Matches_phone_re t :
  Matches phone_re t <->
  digits_10_15 t \/ exists ds, t = char "+" :: ds /\ digits_10_15 ds.
Proof.
  unfold phone_re. rewrite Matches_Seq. split.
  - intros (o & ds & -> & Ho & Hds).
    apply digits_spec in Hds.
    apply Matches_Opt in Ho as [-> | Ho].
    + left. exact Hds.
    + apply Matches_Chr in Ho as ->. right. exists ds. auto.
  - intros [H | (ds & -> & H)]; apply digits_spec in H.
    + exists [], t. repeat split; auto. apply Matches_Opt. auto.
    + exists [char "+"], ds. repeat split; auto.
      apply Matches_Opt. right. apply Matches_Chr. reflexivity.
Qed.

(** [/^\+?\d{10,15}$/] on the stripped input accepts exactly the numbers
    of the phone rule. *)
Lemma test_phone_re s :
  test phone_re (stripped (Str s)) = true <-> phone_format s.
Proof.
  rewrite test_Matches, Matches_phone_re, stripped_strip. reflexivity.
Qed.

Lemma on_text_Str P s : on_text P (Str s) <-> P s.
Proof.
  unfold on_text. split.
  - intros (s' & E & H). injection E as <-. exact H.
  - eauto.
Qed.

Lemma all_present_spec d :
  all_present d <->
  truthy (name d) = true /\ truthy (email d) = true
  /\ truthy (phone d) = true /\ truthy (service d) = true
  /\ truthy (details d) = true.
Proof. unfold all_present. rewrite !truthy_non_empty. reflexivity. Qed.

(** [validateInput] once every field is a string. *)
Lemma validateInput_present d :
  all_present d ->
  validateInput d =
    if negb (test name_re (ToString (name d))) then Invalid msg_name
    else if negb (test email_re (ToString (email d))) then Invalid msg_email
    else if negb (test phone_re (stripped (phone d))) then Invalid msg_phone
    else Valid.
Proof.
  intros H. apply all_present_spec in H as (H1 & H2 & H3 & H4 & H5).
  destruct d as [n e p s t]. simpl in *.
  rewrite H1, H2, H3, H4, H5. reflexivity.
Qed.

Lemma validateInput_absent d :
  ~ all_present d -> validateInput d = Invalid msg_required.
Proof.
  intros H. rewrite all_present_spec in H.
  destruct d as [n e p s t]. simpl in *.
  destruct (truthy n), (truthy e), (truthy p), (truthy s), (truthy t);
    simpl; auto.
  exfalso. apply H. auto.
Qed.

Lemma all_present_dec d : all_present d \/ ~ all_present d.
Proof.
  rewrite all_present_spec.
  destruct (truthy (name d)), (truthy (email d)), (truthy (phone d)),
    (truthy (service d)), (truthy (details d));
    try (left; repeat split; reflexivity);
    right; intros (H1 & H2 & H3 & H4 & H5); discriminate.
Qed.

(** The outcome of checking in order is unique. *)
Lemma first_violation_unique d rs o1 o2 :
  first_violation d rs o1 -> first_violation d rs o2 -> o1 = o2.
Proof.
  intros H1. revert o2.
  induction H1; intros o2 H2; inversion H2; subst; auto; contradiction.
Qed.

End ValidatorFacts.
Import ValidatorFacts.

(** ** What the handlers do, case by case *)

Module WorkflowFacts.

Section Runs.

Variable sanitizeHtml : value -> jsstring.
Variable emailUser : value.

Local Abbreviation handle := (post_orders sanitizeHtml emailUser).
Local Abbreviation clean := (sanitized sanitizeHtml).

Ltac run v H :=
  destruct v;
  unfold post_orders, post_orders_admin_only, post_orders_with_customer;
  rewrite H.

Lemma run_invalid v e d db reason :
  validateInput d = Invalid reason ->
  handle v e d db =
    (tt, db,
     [received; Respond {| status := 400; payload := ErrorBody reason |}]).
Proof. intros H. run v H; reflexivity. Qed.

Lemma run_store_failure v e d db message :
  validateInput d = Valid ->
  db_error e = Some message ->
  handle v e d db =
    (tt, db,
     [received; DbRun (clean d);
      ConsoleError "Database insert error:" message;
      Respond {| status := 500; payload := ErrorBody msg_save_failed |}]).
Proof.
  intros H He. run v H; unfold bind, db_run; simpl; rewrite He; reflexivity.
Qed.

Lemma run_admin_only e d db :
  validateInput d = Valid ->
  db_error e = None ->
  handle AdminOnly e d db =
    (tt, grown e (clean d) db,
     [received; DbRun (clean d);
      SendMail (mailOptionsAdmin emailUser (clean d) (now_iso e))]
     ++ match admin_error e with
        | Some message =>
            [ConsoleError "Email sending error:" message;
             Respond {| status := 200;
                        payload := MessageBody msg_email_failed |}]
        | None =>
            [ConsoleLog "Email sent successfully:";
             Respond {| status := 200;
                        payload := MessageBody msg_submitted |}]
        end).
Proof.
  intros H He. unfold post_orders, post_orders_admin_only.
  rewrite H. unfold bind, db_run, sendMail. simpl. rewrite He.
  destruct (admin_error e); reflexivity.
Qed.

Lemma run_with_customer e d db :
  validateInput d = Valid ->
  db_error e = None ->
  handle WithCustomer e d db =
    (tt, grown e (clean d) db,
     [received; DbRun (clean d);
      SendMail (mailOptionsAdmin emailUser (clean d) (now_iso e));
      SendMail (mailOptionsCustomer emailUser (clean d))]
     ++ (if customer_first e
         then customer_outcome e ++ admin_log e
         else admin_log e ++ customer_outcome e)).
Proof.
  intros H He. unfold post_orders, post_orders_with_customer.
  rewrite H. unfold bind, db_run, sendMail, admin_log, customer_outcome.
  simpl. rewrite He.
  destruct (customer_first e), (admin_error e), (customer_error e);
    reflexivity.
Qed.

End Runs.

End WorkflowFacts.
Import WorkflowFacts.

(** ** Properties of the validator *)

Lemma digit_or_punctuation_outside_name_class c :
  digit c = true \/ punctuation c = true -> name_class c = false.
Proof.
  unfold name_class, letter, lower, upper, whitespace, digit, punctuation,
    between.
  intros H. apply not_true_is_false. intros Hc.
  repeat rewrite ?orb_true_iff, ?andb_true_iff, ?N.leb_le, ?N.eqb_eq in H.
  repeat rewrite ?orb_true_iff, ?andb_true_iff, ?N.leb_le, ?N.eqb_eq in Hc.
  lia.
Qed.

Lemma blank_name_format s : blank s -> name_format s.
Proof.
  intros [Hne H]. split; [exact Hne |].
  eapply Forall_impl; [| exact H]. intros c Hc. right. exact Hc.
Qed.

Lemma email_format_nonempty s : email_format s -> s <> [].
Proof.
  intros (l & d & t & -> & [Hl _] & _). destruct l; [contradiction | discriminate].
Qed.

Lemma phone_format_nonempty s : phone_format s -> s <> [].
Proof.
  intros H ->. unfold phone_format, digits_10_15 in H. simpl in H.
  destruct H as [[H _] | (ds & H & _)]; [simpl in H; lia | discriminate].
Qed.

Lemma non_empty_Str s : s <> [] -> non_empty (Str s).
Proof. intros H. destruct s as [| c s]; [contradiction |]. exists c, s. reflexivity. Qed.

(** C3. For every input, [validateInput] checks presence, name format,
    email format and phone format in this order and stops at the first
    rule that fails: what it reports is exactly the reason of the first
    violated rule ("All fields are required.", "Name must contain only
    letters and spaces.", "Invalid email format.", "Invalid phone
    number."), and nothing when the four rules hold. *)
Theorem validateInput_reports_first_violation (d : submission) :
  first_violation d rules (reported (validateInput d)).
Proof.
  unfold rules.
  destruct (all_present_dec d) as [Hp | Hp].
  2: { rewrite (validateInput_absent Hp). apply fv_here. exact Hp. }
  rewrite (validateInput_present Hp).
  apply fv_later; [exact Hp |].
  destruct Hp as ((c1 & n' & Hn) & (c2 & e' & He) & (c3 & p' & Hph) & _).
  remember (c1 :: n') as n eqn:En. remember (c2 :: e') as e eqn:Ee.
  remember (c3 :: p') as p eqn:Ep. clear En Ee Ep.
  rewrite Hn, He, Hph. simpl ToString.
  destruct (test name_re n) eqn:Tn; simpl.
  2: { apply fv_here. simpl. rewrite Hn, on_text_Str, <- test_name_re, Tn.
       discriminate. }
  apply fv_later; [simpl; rewrite Hn, on_text_Str; apply test_name_re; exact Tn |].
  destruct (test email_re e) eqn:Te; simpl.
  2: { apply fv_here. simpl. rewrite He, on_text_Str, <- test_email_re, Te.
       discriminate. }
  apply fv_later; [simpl; rewrite He, on_text_Str; apply test_email_re; exact Te |].
  destruct (test phone_re (stripped (Str p))) eqn:Tp; simpl.
  2: { apply fv_here. simpl. rewrite Hph, on_text_Str, <- test_phone_re, Tp.
       discriminate. }
  apply fv_later; [simpl; rewrite Hph, on_text_Str; apply test_phone_re; exact Tp |].
  apply fv_none.
Qed.

(** What the first three rules let through reaches the phone rule. *)
Lemma validateInput_at_phone_rule d p :
  all_present d ->
  on_text name_format (name d) ->
  on_text email_format (email d) ->
  phone d = Str p ->
  validateInput d =
    if test phone_re (stripped (Str p)) then Valid else Invalid msg_phone.
Proof.
  intros Hp (n & Hn & Fn) (e & He & Fe) Hph.
  rewrite (validateInput_present Hp), Hn, He, Hph. simpl ToString.
  apply test_name_re in Fn. apply test_email_re in Fe.
  rewrite Fn, Fe. simpl. destruct (test phone_re (stripped (Str p))); reflexivity.
Qed.

(** C7. Once presence, name format and email format hold, the phone rule
    decides: a phone string that, after every hyphen, parenthesis and
    whitespace character is removed, is an optional leading [+] followed
    by 10 to 15 digits is accepted, and any other phone string fails with
    "Invalid phone number."; "(555) 123-4567" passes the test of the
    phone rule. *)
Theorem phone_rule_accepts_exactly_the_phone_format (d : submission) (p : jsstring) :
  all_present d ->
  on_text name_format (name d) ->
  on_text email_format (email d) ->
  phone d = Str p ->
  (phone_format p -> validateInput d = Valid)
  /\ (~ phone_format p -> validateInput d = Invalid "Invalid phone number.")
  /\ test phone_re (stripped (Str (js "(555) 123-4567"))) = true.
Proof.
  intros Hp Hn He Hph.
  rewrite (validateInput_at_phone_rule Hp Hn He Hph).
  repeat split.
  - intros H. apply test_phone_re in H. rewrite H. reflexivity.
  - intros H. rewrite <- test_phone_re in H.
    destruct (test phone_re (stripped (Str p))); [| reflexivity].
    exfalso. apply H. reflexivity.
Qed.

Lemma phone_rule_accepts_exactly_the_phone_format_witness :
  validateInput blank_details = Valid.
Proof.
  destruct (@phone_rule_accepts_exactly_the_phone_format
              blank_details (js "(555) 123-4567")) as [H _].
  - apply all_present_spec. repeat split; reflexivity.
  - apply on_text_Str. apply test_name_re. reflexivity.
  - apply on_text_Str. apply test_email_re. reflexivity.
  - reflexivity.
  - apply H. apply test_phone_re. reflexivity.
Defined.

(** C8. When all five fields are present, a name that contains a digit or
    a punctuation character is rejected with "Name must contain only
    letters and spaces.", whatever the other fields hold. *)
Theorem name_with_digit_or_punctuation_is_rejected
    (d : submission) (n : jsstring) (c : code_unit) :
  all_present d ->
  name d = Str n ->
  In c n ->
  digit c = true \/ punctuation c = true ->
  validateInput d = Invalid "Name must contain only letters and spaces.".
Proof.
  intros Hp Hn Hin Hc.
  rewrite (validateInput_present Hp), Hn. simpl ToString.
  destruct (test name_re n) eqn:Tn; [| reflexivity].
  exfalso. apply test_name_re in Tn as [_ Hall].
  rewrite Forall_forall in Hall. specialize (Hall c Hin).
  apply name_class_spec in Hall.
  rewrite (@digit_or_punctuation_outside_name_class c Hc) in Hall. discriminate.
Qed.

Lemma name_with_digit_or_punctuation_is_rejected_witness :
  validateInput
    {| name := Str (js "R2-D2");
       email := Str (js "jane@example.com");
       phone := Str (js "555-123-4567");
       service := Str (js "Moving");
       details := Str (js "3 boxes") |}
  = Invalid "Name must contain only letters and spaces.".
Proof.
  apply (@name_with_digit_or_punctuation_is_rejected _ (js "R2-D2") 50%N).
  - apply all_present_spec. repeat split; reflexivity.
  - reflexivity.
  - simpl. auto.
  - left. reflexivity.
Defined.

Lemma non_empty_or_missing v : non_empty v <-> ~ missing_or_empty v.
Proof.
  unfold non_empty, missing_or_empty. split.
  - intros (c & s & ->) [H | H]; discriminate.
  - intros H. destruct v as [| [| c s]]; eauto; exfalso; apply H; auto.
Qed.

(** The presence rule fails exactly on a missing or empty field. *)
Lemma presence_rule_exact d :
  validateInput d = Invalid msg_required <->
  missing_or_empty (name d) \/ missing_or_empty (email d)
  \/ missing_or_empty (phone d) \/ missing_or_empty (service d)
  \/ missing_or_empty (details d).
Proof.
  split.
  - intros H. destruct (all_present_dec d) as [Hp | Hp].
    + rewrite (validateInput_present Hp) in H.
      destruct (test name_re _), (test email_re _), (test phone_re _);
        simpl in H; discriminate.
    + unfold all_present in Hp. rewrite !non_empty_or_missing in Hp.
      destruct d as [n e p s t]. simpl in *.
      destruct n as [| [| ? ?]]; [left; left; reflexivity
                                 | left; right; reflexivity |].
      destruct e as [| [| ? ?]]; [right; left; left; reflexivity
                                 | right; left; right; reflexivity |].
      destruct p as [| [| ? ?]]; [right; right; left; left; reflexivity
                                 | right; right; left; right; reflexivity |].
      destruct s as [| [| ? ?]]; [right; right; right; left; left; reflexivity
                                 | right; right; right; left; right; reflexivity |].
      destruct t as [| [| ? ?]]; [right; right; right; right; left; reflexivity
                                 | right; right; right; right; right; reflexivity |].
      exfalso. apply Hp. repeat split; intros [H' | H']; discriminate.
  - intros H. apply validateInput_absent. unfold all_present.
    rewrite !non_empty_or_missing. tauto.
Qed.

Lemma blank_fields_valid n em p sv dt :
  name_format n -> email_format em -> phone_format p ->
  sv <> [] -> dt <> [] ->
  validateInput {| name := Str n; email := Str em; phone := Str p;
                   service := Str sv; details := Str dt |} = Valid.
Proof.
  intros Hn He Hp Hs Ht.
  assert (Hall : all_present {| name := Str n; email := Str em; phone := Str p;
                                service := Str sv; details := Str dt |}).
  { unfold all_present. simpl.
    repeat split; apply non_empty_Str; auto.
    - apply Hn.
    - apply (email_format_nonempty He).
    - apply (phone_format_nonempty Hp). }
  rewrite (validateInput_present Hall). simpl ToString. simpl phone.
  apply test_name_re in Hn. apply test_email_re in He. apply test_phone_re in Hp.
  rewrite Hn, He, Hp. reflexivity.
Qed.

(** ** Properties of the submission workflow *)

Section WorkflowProperties.

Variable sanitizeHtml : value -> jsstring.
Variable emailUser : value.

Local Abbreviation handle := (post_orders sanitizeHtml emailUser).
Local Abbreviation clean := (sanitized sanitizeHtml).

Lemma inserts_of_run v e d db :
  inserts (events_of (handle v e d) db) =
    match validateInput d with
    | Valid => [clean d]
    | Invalid _ => []
    end.
Proof.
  unfold events_of.
  destruct (validateInput d) as [| reason] eqn:Hv.
  2: { rewrite (@run_invalid sanitizeHtml emailUser v e d db reason Hv). reflexivity. }
  destruct (db_error e) as [message |] eqn:He.
  { rewrite (@run_store_failure sanitizeHtml emailUser v e d db message Hv He). reflexivity. }
  destruct v.
  - rewrite (@run_admin_only sanitizeHtml emailUser e d db Hv He). simpl.
    destruct (admin_error e); reflexivity.
  - rewrite (@run_with_customer sanitizeHtml emailUser e d db Hv He). simpl.
    unfold admin_log, customer_outcome.
    destruct (customer_first e), (admin_error e), (customer_error e);
      reflexivity.
Qed.

Lemma database_of_run v e d db :
  database_after (handle v e d) db =
    match validateInput d, db_error e with
    | Valid, None => grown e (clean d) db
    | _, _ => db
    end.
Proof.
  unfold database_after.
  destruct (validateInput d) as [| reason] eqn:Hv.
  2: { rewrite (@run_invalid sanitizeHtml emailUser v e d db reason Hv). reflexivity. }
  destruct (db_error e) as [message |] eqn:He.
  { rewrite (@run_store_failure sanitizeHtml emailUser v e d db message Hv He). reflexivity. }
  destruct v.
  - rewrite (@run_admin_only sanitizeHtml emailUser e d db Hv He). reflexivity.
  - rewrite (@run_with_customer sanitizeHtml emailUser e d db Hv He). reflexivity.
Qed.

Lemma responses_with_customer e d db :
  validateInput d = Valid ->
  db_error e = None ->
  responses (events_of (handle WithCustomer e d) db) =
    [{| status := 200;
        payload := MessageBody
                     match customer_error e with
                     | Some _ => msg_customer_failed
                     | None => msg_submitted
                     end |}].
Proof.
  intros Hv He. unfold events_of.
  rewrite (@run_with_customer sanitizeHtml emailUser e d db Hv He). simpl.
  unfold admin_log, customer_outcome.
  destruct (customer_first e), (admin_error e), (customer_error e);
    reflexivity.
Qed.

Lemma responses_admin_only e d db :
  validateInput d = Valid ->
  db_error e = None ->
  responses (events_of (handle AdminOnly e d) db) =
    [{| status := 200;
        payload := MessageBody
                     match admin_error e with
                     | Some _ => msg_email_failed
                     | None => msg_submitted
                     end |}].
Proof.
  intros Hv He. unfold events_of.
  rewrite (@run_admin_only sanitizeHtml emailUser e d db Hv He). simpl.
  destruct (admin_error e); reflexivity.
Qed.

Lemma mails_of_run v e d db :
  mails (events_of (handle v e d) db) =
    match validateInput d, db_error e with
    | Valid, None =>
        mailOptionsAdmin emailUser (clean d) (now_iso e)
        :: match v with
           | AdminOnly => []
           | WithCustomer => [mailOptionsCustomer emailUser (clean d)]
           end
    | _, _ => []
    end.
Proof.
  unfold events_of.
  destruct (validateInput d) as [| reason] eqn:Hv.
  2: { rewrite (@run_invalid sanitizeHtml emailUser v e d db reason Hv). reflexivity. }
  destruct (db_error e) as [message |] eqn:He.
  { rewrite (@run_store_failure sanitizeHtml emailUser v e d db message Hv He). reflexivity. }
  destruct v.
  - rewrite (@run_admin_only sanitizeHtml emailUser e d db Hv He). simpl.
    destruct (admin_error e); reflexivity.
  - rewrite (@run_with_customer sanitizeHtml emailUser e d db Hv He). simpl.
    unfold admin_log, customer_outcome.
    destruct (customer_first e), (admin_error e), (customer_error e);
      reflexivity.
Qed.

Lemma responses_of_rejected v e d db reason :
  validateInput d = Invalid reason ->
  responses (events_of (handle v e d) db) =
    [{| status := 400; payload := ErrorBody reason |}].
Proof.
  intros Hv. unfold events_of.
  rewrite (@run_invalid sanitizeHtml emailUser v e d db reason Hv). reflexivity.
Qed.

Lemma responses_of_store_failure v e d db message :
  validateInput d = Valid ->
  db_error e = Some message ->
  responses (events_of (handle v e d) db) =
    [{| status := 500; payload := ErrorBody msg_save_failed |}].
Proof.
  intros Hv He. unfold events_of.
  rewrite (@run_store_failure sanitizeHtml emailUser v e d db message Hv He).
  reflexivity.
Qed.

End WorkflowProperties.

(** C1, as the code has it. In the deployment with customer notification
    the response (and the database) is the same whatever the administrator
    mail's outcome. In the deployment that notifies the administrator
    only, a request whose validation and insert succeed is answered with
    status 200 whatever that outcome, but the message is "Order submitted
    successfully!" when the mail is sent and "Order saved, but failed to
    send email." when it fails. *)
Theorem admin_outcome_and_response
    (sanitizeHtml : value -> jsstring) (emailUser : value)
    (e : env) (d : submission) (db : database) (a : option string) :
  (responses
     (events_of (post_orders sanitizeHtml emailUser WithCustomer
                   (with_admin_error e a) d) db)
   = responses
       (events_of (post_orders sanitizeHtml emailUser WithCustomer e d) db)
   /\ database_after (post_orders sanitizeHtml emailUser WithCustomer
                        (with_admin_error e a) d) db
      = database_after (post_orders sanitizeHtml emailUser WithCustomer e d) db)
  /\ (validateInput d = Valid ->
      db_error e = None ->
      responses
        (events_of (post_orders sanitizeHtml emailUser AdminOnly
                      (with_admin_error e a) d) db)
      = [{| status := 200;
            payload := MessageBody
                         match a with
                         | None => "Order submitted successfully!"
                         | Some _ => "Order saved, but failed to send email."
                         end |}]).
Proof.
  split; [split |].
  - destruct (validateInput d) as [| reason] eqn:Hv.
    + destruct (db_error e) as [message |] eqn:He.
      * rewrite !(@responses_of_store_failure _ _ _ _ _ _ message Hv); auto.
      * rewrite !responses_with_customer; auto.
    + rewrite !(@responses_of_rejected _ _ _ _ _ _ reason Hv). reflexivity.
  - rewrite !database_of_run. reflexivity.
  - intros Hv He. rewrite responses_admin_only; auto.
Qed.

Lemma admin_outcome_and_response_witness :
  responses
    (events_of (post_orders escape_markup account AdminOnly admin_down jane)
       empty_db)
  = [{| status := 200;
        payload := MessageBody "Order saved, but failed to send email." |}].
Proof.
  destruct (admin_outcome_and_response escape_markup account all_fine jane
              empty_db (Some "ETIMEDOUT"%string)) as [_ H].
  apply H; reflexivity.
Defined.

(** C1, as stated, fails in the deployment that notifies the administrator
    only: for the same valid request and a successful insert, the response
    message differs with the outcome of the administrator's mail. *)
Lemma admin_only_response_depends_on_admin_mail :
  validateInput jane = Valid
  /\ db_error all_fine = None
  /\ db_error admin_down = None
  /\ admin_down = with_admin_error all_fine (Some "ETIMEDOUT"%string)
  /\ responses
       (events_of (post_orders escape_markup account AdminOnly all_fine jane)
          empty_db)
     = [{| status := 200; payload := MessageBody "Order submitted successfully!" |}]
  /\ responses
       (events_of (post_orders escape_markup account AdminOnly admin_down jane)
          empty_db)
     = [{| status := 200;
           payload := MessageBody "Order saved, but failed to send email." |}]
  /\ responses
       (events_of (post_orders escape_markup account AdminOnly all_fine jane)
          empty_db)
     <> responses
          (events_of (post_orders escape_markup account AdminOnly admin_down jane)
             empty_db).
Proof.
  repeat split; try reflexivity.
  vm_compute. discriminate.
Qed.

(** C2. Whatever the deployment, an [INSERT] is issued, and a row reaches
    the [orders] table, only for a body that [validateInput] found valid,
    and the values bound for name, email, phone, service and details are
    exactly the outputs of [sanitizeHtml] on the submitted fields. *)
Theorem stored_orders_are_validated_and_sanitized
    (sanitizeHtml : value -> jsstring) (emailUser : value)
    (v : deployment) (e : env) (d : submission) (db : database) :
  (forall p,
      In p (inserts (events_of (post_orders sanitizeHtml emailUser v e d) db)) ->
      validateInput d = Valid
      /\ p = {| p_name := sanitizeHtml (name d);
                p_email := sanitizeHtml (email d);
                p_phone := sanitizeHtml (phone d);
                p_service := sanitizeHtml (service d);
                p_details := sanitizeHtml (details d) |})
  /\ (forall r,
         In r (rows (database_after (post_orders sanitizeHtml emailUser v e d) db)) ->
         In r (rows db)
         \/ (validateInput d = Valid
             /\ row_fields r = {| p_name := sanitizeHtml (name d);
                                  p_email := sanitizeHtml (email d);
                                  p_phone := sanitizeHtml (phone d);
                                  p_service := sanitizeHtml (service d);
                                  p_details := sanitizeHtml (details d) |})).
Proof.
  split.
  - intros p Hin. rewrite inserts_of_run in Hin.
    destruct (validateInput d); simpl in Hin; [| contradiction].
    destruct Hin as [<- | []]. split; reflexivity.
  - intros r Hin. rewrite database_of_run in Hin.
    destruct (validateInput d); [| left; exact Hin].
    destruct (db_error e); [left; exact Hin |].
    simpl in Hin. apply in_app_or in Hin as [Hin | [<- | []]].
    + left. exact Hin.
    + right. split; reflexivity.
Qed.

Lemma stored_orders_are_validated_and_sanitized_witness :
  validateInput jane = Valid
  /\ sanitized escape_markup jane
     = {| p_name := js "Jane Doe";
          p_email := js "jane@example.com";
          p_phone := js "555-123-4567";
          p_service := js "Moving";
          p_details := js "3 boxes" |}.
Proof.
  destruct (stored_orders_are_validated_and_sanitized escape_markup account
              WithCustomer all_fine jane empty_db) as [H _].
  apply (H (sanitized escape_markup jane)).
  vm_compute. left. reflexivity.
Defined.

(** C4. When [validateInput] answers [Invalid reason], the response is
    400 with that reason, no insert and no mail is attempted, and the
    database is left as it was. *)
Theorem invalid_submission_is_rejected_untouched
    (sanitizeHtml : value -> jsstring) (emailUser : value)
    (v : deployment) (e : env) (d : submission) (db : database)
    (reason : string) :
  validateInput d = Invalid reason ->
  responses (events_of (post_orders sanitizeHtml emailUser v e d) db)
  = [{| status := 400; payload := ErrorBody reason |}]
  /\ inserts (events_of (post_orders sanitizeHtml emailUser v e d) db) = []
  /\ mails (events_of (post_orders sanitizeHtml emailUser v e d) db) = []
  /\ database_after (post_orders sanitizeHtml emailUser v e d) db = db.
Proof.
  intros Hv.
  rewrite (@responses_of_rejected _ _ _ _ _ _ reason Hv).
  rewrite inserts_of_run, mails_of_run, database_of_run, Hv. auto.
Qed.

Lemma invalid_submission_is_rejected_untouched_witness :
  responses
    (events_of (post_orders escape_markup account WithCustomer all_fine
                  not_an_email) empty_db)
  = [{| status := 400; payload := ErrorBody "Invalid email format." |}]
  /\ inserts
       (events_of (post_orders escape_markup account WithCustomer all_fine
                     not_an_email) empty_db) = []
  /\ mails
       (events_of (post_orders escape_markup account WithCustomer all_fine
                     not_an_email) empty_db) = []
  /\ database_after
       (post_orders escape_markup account WithCustomer all_fine not_an_email)
       empty_db = empty_db.
Proof.
  apply (@invalid_submission_is_rejected_untouched escape_markup account
           WithCustomer all_fine not_an_email empty_db "Invalid email format.").
  reflexivity.
Defined.

(** C5. For a valid body, a failing insert is answered with 500 and
    exactly "Failed to save order.", no mail is attempted and nothing is
    stored; it is the only failing step that is fatal: when the insert
    succeeds the status is 200 whatever the mails' outcomes. *)
Theorem store_failure_is_the_only_fatal_step
    (sanitizeHtml : value -> jsstring) (emailUser : value)
    (v : deployment) (e : env) (d : submission) (db : database) :
  validateInput d = Valid ->
  (forall message,
      db_error e = Some message ->
      responses (events_of (post_orders sanitizeHtml emailUser v e d) db)
      = [{| status := 500; payload := ErrorBody "Failed to save order." |}]
      /\ mails (events_of (post_orders sanitizeHtml emailUser v e d) db) = []
      /\ database_after (post_orders sanitizeHtml emailUser v e d) db = db)
  /\ (db_error e = None ->
      exists message,
        responses (events_of (post_orders sanitizeHtml emailUser v e d) db)
        = [{| status := 200; payload := MessageBody message |}]).
Proof.
  intros Hv. split.
  - intros message He.
    rewrite (@responses_of_store_failure _ _ _ _ _ _ message Hv He).
    rewrite mails_of_run, database_of_run, Hv, He. auto.
  - intros He. destruct v.
    + rewrite responses_admin_only by assumption. eauto.
    + rewrite responses_with_customer by assumption. eauto.
Qed.

Lemma store_failure_is_the_only_fatal_step_witness :
  responses
    (events_of (post_orders escape_markup account AdminOnly store_down jane)
       empty_db)
  = [{| status := 500; payload := ErrorBody "Failed to save order." |}]
  /\ mails
       (events_of (post_orders escape_markup account AdminOnly store_down jane)
          empty_db) = []
  /\ database_after
       (post_orders escape_markup account AdminOnly store_down jane) empty_db
     = empty_db.
Proof.
  destruct (@store_failure_is_the_only_fatal_step escape_markup account
              AdminOnly store_down jane empty_db) as [H _].
  - reflexivity.
  - apply (H "SQLITE_BUSY"%string). reflexivity.
Defined.

(** C6. In the deployment with customer notification, when the insert
    succeeds and the customer mail fails, the response is 200 with
    exactly "Order saved, but failed to send customer confirmation.", and
    the row is in the table: the rows are the former ones followed by the
    new row. *)
Theorem customer_mail_failure_keeps_the_order
    (sanitizeHtml : value -> jsstring) (emailUser : value)
    (e : env) (d : submission) (db : database) (message : string) :
  validateInput d = Valid ->
  db_error e = None ->
  customer_error e = Some message ->
  responses
    (events_of (post_orders sanitizeHtml emailUser WithCustomer e d) db)
  = [{| status := 200;
        payload := MessageBody
                     "Order saved, but failed to send customer confirmation." |}]
  /\ rows (database_after
             (post_orders sanitizeHtml emailUser WithCustomer e d) db)
     = rows db ++ [{| row_id := N.succ (last_id db);
                      row_fields := sanitized sanitizeHtml d;
                      row_created_at := db_clock e |}].
Proof.
  intros Hv He Hc. split.
  - rewrite responses_with_customer by assumption. rewrite Hc. reflexivity.
  - rewrite database_of_run, Hv, He. reflexivity.
Qed.

Lemma customer_mail_failure_keeps_the_order_witness :
  responses
    (events_of (post_orders escape_markup account WithCustomer customer_down
                  jane) empty_db)
  = [{| status := 200;
        payload := MessageBody
                     "Order saved, but failed to send customer confirmation." |}]
  /\ rows (database_after
             (post_orders escape_markup account WithCustomer customer_down jane)
             empty_db)
     = rows empty_db
       ++ [{| row_id := N.succ (last_id empty_db);
              row_fields := sanitized escape_markup jane;
              row_created_at := db_clock customer_down |}].
Proof.
  apply (@customer_mail_failure_keeps_the_order escape_markup account
           customer_down jane empty_db "EENVELOPE");
    reflexivity.
Defined.

(** C10. The presence rule fails exactly on a missing or empty field, so
    whitespace passes it: a submission whose service and details are
    non-empty strings of whitespace only, and whose name, email and phone
    satisfy their rules, is valid, and with a successful insert it is
    stored in both deployments; a whitespace-only name passes the name
    test too. *)
Theorem whitespace_only_service_and_details_are_accepted
    (sanitizeHtml : value -> jsstring) (emailUser : value)
    (v : deployment) (e : env) (db : database)
    (n em p sv dt : jsstring) :
  name_format n ->
  email_format em ->
  phone_format p ->
  blank sv ->
  blank dt ->
  let d := {| name := Str n; email := Str em; phone := Str p;
              service := Str sv; details := Str dt |} in
  validateInput d = Valid
  /\ (db_error e = None ->
      rows (database_after (post_orders sanitizeHtml emailUser v e d) db)
      = rows db ++ [{| row_id := N.succ (last_id db);
                       row_fields := sanitized sanitizeHtml d;
                       row_created_at := db_clock e |}]
      /\ exists message,
          responses (events_of (post_orders sanitizeHtml emailUser v e d) db)
          = [{| status := 200; payload := MessageBody message |}])
  /\ (forall n', blank n' -> test name_re n' = true)
  /\ (forall d',
         validateInput d' = Invalid "All fields are required." <->
         missing_or_empty (name d') \/ missing_or_empty (email d')
         \/ missing_or_empty (phone d') \/ missing_or_empty (service d')
         \/ missing_or_empty (details d')).
Proof.
  intros Hn He Hp [Hs _] [Ht _] d.
  assert (Hv : validateInput d = Valid).
  { apply blank_fields_valid; assumption. }
  split; [exact Hv |]. split; [| split].
  - intros Hdb. split.
    + rewrite database_of_run, Hv, Hdb. reflexivity.
    + destruct v.
      * rewrite responses_admin_only by assumption. eauto.
      * rewrite responses_with_customer by assumption. eauto.
  - intros n' Hb. apply test_name_re. apply blank_name_format. exact Hb.
  - intros d'. apply presence_rule_exact.
Qed.

Lemma whitespace_only_service_and_details_are_accepted_witness :
  validateInput blank_details = Valid
  /\ rows (database_after
             (post_orders escape_markup account AdminOnly all_fine blank_details)
             empty_db)
     = [{| row_id := 1;
           row_fields := {| p_name := js "Jane Doe";
                            p_email := js "jane@example.com";
                            p_phone := js "(555) 123-4567";
                            p_service := js " ";
                            p_details := js "  " |};
           row_created_at := js "2024-01-01 00:00:00" |}].
Proof.
  destruct (@whitespace_only_service_and_details_are_accepted
              escape_markup account AdminOnly all_fine empty_db
              (js "Jane Doe") (js "jane@example.com") (js "(555) 123-4567")
              (js " ") (js "  ")) as (Hv & Hrows & _).
  - apply test_name_re. reflexivity.
  - apply test_email_re. reflexivity.
  - apply test_phone_re. reflexivity.
  - split; [discriminate | repeat constructor].
  - split; [discriminate | repeat constructor].
  - split; [exact Hv |].
    destruct Hrows as [Hrows _]; [reflexivity |]. exact Hrows.
Defined.

(** ** The tests on concrete strings *)

Example name_test_samples :
  test name_re (js "Jane Doe") = true
  /\ test name_re (js "O'Brien") = false
  /\ test name_re (js "R2-D2") = false
  /\ test name_re [] = false.
Proof. repeat split; reflexivity. Qed.

Example email_test_samples :
  test email_re (js "jane@example.com") = true
  /\ test email_re (js "not-an-email") = false
  /\ test email_re (js "jane@example") = false
  /\ test email_re (js "jane doe@example.com") = false
  /\ test email_re (js "jane@home@example.com") = false.
Proof. repeat split; reflexivity. Qed.

Example phone_test_samples :
  test phone_re (stripped (Str (js "555-123-4567"))) = true
  /\ test phone_re (stripped (Str (js "+1 (555) 123-4567"))) = true
  /\ test phone_re (stripped (Str (js "123456789"))) = false
  /\ test phone_re (stripped (Str (js "1234567890123456"))) = false
  /\ test phone_re (stripped (Str (js "555-123-456x"))) = false.
Proof. repeat split; reflexivity. Qed.

(** The first end-to-end case of the specification, in the deployment
    that notifies the administrator only. *)
Example jane_is_stored_and_answered :
  post_orders escape_markup account AdminOnly all_fine jane empty_db
  = (tt,
     {| rows := [{| row_id := 1;
                    row_fields := sanitized escape_markup jane;
                    row_created_at := js "2024-01-01 00:00:00" |}];
        last_id := 1 |},
     [ConsoleLog "Received POST request:";
      DbRun (sanitized escape_markup jane);
      SendMail (mailOptionsAdmin account (sanitized escape_markup jane)
                  (js "2024-01-01T00:00:00.000Z"));
      ConsoleLog "Email sent successfully:";
      Respond {| status := 200;
                 payload := MessageBody "Order submitted successfully!" |}]).
Proof. reflexivity. Qed.

(** ** Further properties of the validator *)

Lemma at_is_not_plain : ~ plain (char "@").
Proof. intros [_ H]. apply H. reflexivity. Qed.

Lemma plain_run_has_no_at l : Forall plain l -> ~ In (char "@") l.
Proof.
  intros H Hin. rewrite Forall_forall in H.
  exact (at_is_not_plain (H _ Hin)).
Qed.

Lemma plain_is_not_whitespace l :
  Forall plain l -> Forall (fun c => whitespace c = false) l.
Proof. apply Forall_impl. intros c [H _]. exact H. Qed.

(** What an accepted address looks like around its [@]. *)
Lemma email_format_shape s :
  email_format s ->
  count_occ N.eq_dec s (char "@") = 1
  /\ Forall (fun c => whitespace c = false) s
  /\ hd_error s <> Some (char "@")
  /\ (forall l r, s = l ++ char "@" :: r -> In (char ".") r).
Proof.
  intros (l & d & t & -> & [Hl Pl] & [Hd Pd] & [Ht Pt]).
  assert (Nl := plain_run_has_no_at Pl).
  assert (Nd := plain_run_has_no_at Pd).
  assert (Nt := plain_run_has_no_at Pt).
  repeat split.
  - rewrite count_occ_app, count_occ_cons_eq by reflexivity.
    rewrite count_occ_app, count_occ_cons_neq by discriminate.
    apply (count_occ_not_In N.eq_dec) in Nl, Nd, Nt.
    unfold code_unit in *. lia.
  - apply Forall_app. split; [apply plain_is_not_whitespace; exact Pl |].
    constructor; [reflexivity |].
    apply Forall_app. split; [apply plain_is_not_whitespace; exact Pd |].
    constructor; [reflexivity |]. apply plain_is_not_whitespace. exact Pt.
  - destruct l as [| c l]; [contradiction |]. simpl.
    intros E. injection E as ->. apply Nl. left. reflexivity.
  - intros l0 r0 E.
    apply app_inj_pivot in E as [[[H _] | [H _]] | [_ <-]].
    + contradiction.
    + apply in_app_or in H as [H | [H | H]];
        [contradiction | discriminate | contradiction].
    + apply in_or_app. right. left. reflexivity.
Qed.

(** X1. With the five fields present and a well-formed name, an email
    that does not hold exactly one [@], or holds a whitespace character,
    or starts with [@], or has no [.] after an [@], is rejected with
    "Invalid email format.". *)
Theorem malformed_email_is_rejected (d : submission) (s : jsstring) :
  all_present d ->
  on_text name_format (name d) ->
  email d = Str s ->
  count_occ N.eq_dec s (char "@") <> 1
  \/ (exists c, In c s /\ whitespace c = true)
  \/ hd_error s = Some (char "@")
  \/ (exists l r, s = l ++ char "@" :: r /\ ~ In (char ".") r) ->
  validateInput d = Invalid "Invalid email format.".
Proof.
  intros Hp (n & Hn & Fn) He Hbad.
  rewrite (validateInput_present Hp), Hn, He. simpl ToString.
  apply test_name_re in Fn. rewrite Fn. simpl.
  destruct (test email_re s) eqn:Te; [| reflexivity].
  exfalso. apply test_email_re in Te.
  apply email_format_shape in Te as (Hcount & Hws & Hhd & Hdot).
  destruct Hbad as [H | [(c & Hin & Hc) | [H | (l & r & E & H)]]].
  - contradiction.
  - rewrite Forall_forall in Hws. rewrite (Hws c Hin) in Hc. discriminate.
  - contradiction.
  - apply H. apply (Hdot l r E).
Qed.

Lemma malformed_email_is_rejected_witness :
  validateInput
    {| name := Str (js "Jane Doe");
       email := Str (js "jane@example");
       phone := Str (js "555-123-4567");
       service := Str (js "Moving");
       details := Str (js "3 boxes") |}
  = Invalid "Invalid email format.".
Proof.
  apply (@malformed_email_is_rejected _ (js "jane@example")).
  - apply all_present_spec. repeat split; reflexivity.
  - apply on_text_Str. apply test_name_re. reflexivity.
  - reflexivity.
  - right. right. right. exists (js "jane"), (js "example").
    split; [reflexivity |].
    vm_compute. intros H.
    repeat (destruct H as [H | H]; [discriminate |]). exact H.
Defined.

Lemma strippable_is_not_digit c : strippable c = true -> digit c = false.
Proof.
  unfold strippable, whitespace, digit, between, char.
  intros H. apply not_true_is_false. intros Hc.
  repeat rewrite ?orb_true_iff, ?andb_true_iff, ?N.leb_le, ?N.eqb_eq in H.
  repeat rewrite ?orb_true_iff, ?andb_true_iff, ?N.leb_le, ?N.eqb_eq in Hc.
  simpl in H. lia.
Qed.

Lemma digits_of_stripped s : filter digit (strip s) = filter digit s.
Proof.
  unfold strip. induction s as [| c s IH]; simpl; auto.
  destruct (strippable c) eqn:Hc; simpl.
  - rewrite (strippable_is_not_digit c Hc). exact IH.
  - rewrite IH. reflexivity.
Qed.

Lemma filter_all {A} (f : A -> bool) l :
  Forall (fun c => f c = true) l -> filter f l = l.
Proof.
  induction 1 as [| c l Hc _ IH]; simpl; auto. rewrite Hc, IH. reflexivity.
Qed.

(** What an accepted phone string holds. *)
Lemma phone_format_shape p :
  phone_format p ->
  10 <= List.length (filter digit p) <= 15
  /\ (forall c, In c p ->
        digit c = true \/ c = char "+" \/ strippable c = true).
Proof.
  intros H. split.
  - rewrite <- digits_of_stripped.
    destruct H as [[Hl Hd] | (ds & E & [Hl Hd])].
    + rewrite (filter_all _ Hd). exact Hl.
    + rewrite E. simpl. rewrite (filter_all _ Hd). exact Hl.
  - intros c Hin. destruct (strippable c) eqn:Hc; [auto |].
    assert (Hs : In c (strip p)).
    { unfold strip. apply filter_In. rewrite Hc. auto. }
    destruct H as [[_ Hd] | (ds & E & [_ Hd])].
    + rewrite Forall_forall in Hd. left. auto.
    + rewrite E in Hs. destruct Hs as [<- | Hs]; [auto |].
      rewrite Forall_forall in Hd. left. auto.
Qed.

(** X2. With the five fields present and well-formed name and email, a
    phone that holds fewer than 10 or more than 15 digits in all, or a
    character that is not a digit, a [+], a hyphen, a parenthesis or
    whitespace, is rejected with "Invalid phone number."; in particular a
    phone made of separators only passes the presence rule and fails
    here. *)
Theorem phone_with_wrong_digit_count_or_foreign_character_is_rejected
    (d : submission) (p : jsstring) :
  all_present d ->
  on_text name_format (name d) ->
  on_text email_format (email d) ->
  phone d = Str p ->
  List.length (filter digit p) < 10
  \/ 15 < List.length (filter digit p)
  \/ (exists c, In c p /\ digit c = false /\ c <> char "+"
                /\ strippable c = false) ->
  validateInput d = Invalid "Invalid phone number.".
Proof.
  intros Hp Hn He Hph Hbad.
  rewrite (validateInput_at_phone_rule Hp Hn He Hph).
  destruct (test phone_re (stripped (Str p))) eqn:Tp; [| reflexivity].
  exfalso. apply test_phone_re in Tp.
  apply phone_format_shape in Tp as [Hlen Hchars].
  destruct Hbad as [H | [H | (c & Hin & Hd & Hplus & Hs)]]; try lia.
  destruct (Hchars c Hin) as [H | [H | H]].
  - rewrite H in Hd. discriminate.
  - contradiction.
  - rewrite H in Hs. discriminate.
Qed.

Lemma phone_with_wrong_digit_count_or_foreign_character_is_rejected_witness :
  validateInput
    {| name := Str (js "Jane Doe");
       email := Str (js "jane@example.com");
       phone := Str (js "(--) ");
       service := Str (js "Moving");
       details := Str (js "3 boxes") |}
  = Invalid "Invalid phone number.".
Proof.
  apply (@phone_with_wrong_digit_count_or_foreign_character_is_rejected
           _ (js "(--) ")).
  - apply all_present_spec. repeat split; reflexivity.
  - apply on_text_Str. apply test_name_re. reflexivity.
  - apply on_text_Str. apply test_email_re. reflexivity.
  - reflexivity.
  - left. vm_compute. lia.
Defined.

(** X3. The phone is judged on its stripped form only: two submissions
    that differ in the phone alone, with non-empty phones that strip to
    the same string, get the same validation result. *)
Theorem validation_ignores_phone_separators
    (n e s t : value) (p p' : jsstring) :
  p <> [] ->
  p' <> [] ->
  strip p = strip p' ->
  validateInput {| name := n; email := e; phone := Str p;
                   service := s; details := t |}
  = validateInput {| name := n; email := e; phone := Str p';
                     service := s; details := t |}.
Proof.
  intros Hp Hp' E. unfold validateInput.
  rewrite !stripped_strip, E.
  destruct p; [contradiction |]. destruct p'; [contradiction |].
  reflexivity.
Qed.

Lemma validation_ignores_phone_separators_witness :
  validateInput jane
  = validateInput {| name := Str (js "Jane Doe");
                     email := Str (js "jane@example.com");
                     phone := Str (js "(555) 123 4567");
                     service := Str (js "Moving");
                     details := Str (js "3 boxes") |}.
Proof.
  apply (@validation_ignores_phone_separators
           (Str (js "Jane Doe")) (Str (js "jane@example.com"))
           (Str (js "Moving")) (Str (js "3 boxes"))
           (js "555-123-4567") (js "(555) 123 4567")).
  - discriminate.
  - discriminate.
  - reflexivity.
Defined.

(** X4. No rule looks inside [service] or [details]: two submissions
    with the same name, email and phone, whose service and details are
    present or absent alike, get the same validation result. *)
Theorem validation_sees_service_and_details_by_presence_only
    (d d' : submission) :
  name d = name d' ->
  email d = email d' ->
  phone d = phone d' ->
  truthy (service d) = truthy (service d') ->
  truthy (details d) = truthy (details d') ->
  validateInput d = validateInput d'.
Proof.
  destruct d as [n e p s t], d' as [n' e' p' s' t']. simpl.
  intros -> -> -> Hs Ht. unfold validateInput. rewrite Hs, Ht. reflexivity.
Qed.

Lemma validation_sees_service_and_details_by_presence_only_witness :
  validateInput blank_details
  = validateInput {| name := Str (js "Jane Doe");
                     email := Str (js "jane@example.com");
                     phone := Str (js "(555) 123-4567");
                     service := Str (js "Moving");
                     details := Str (js "3 boxes") |}.
Proof.
  apply validation_sees_service_and_details_by_presence_only; reflexivity.
Defined.

(** ** Further properties of the submission workflow *)

Lemma responses_of_run
    (sanitizeHtml : value -> jsstring) (emailUser : value)
    (v : deployment) (e : env) (d : submission) (db : database) :
  responses (events_of (post_orders sanitizeHtml emailUser v e d) db)
  = [ match validateInput d with
      | Invalid reason => {| status := 400; payload := ErrorBody reason |}
      | Valid =>
          match db_error e with
          | Some _ => {| status := 500; payload := ErrorBody msg_save_failed |}
          | None =>
              {| status := 200;
                 payload :=
                   MessageBody
                     match v with
                     | AdminOnly =>
                         match admin_error e with
                         | None => msg_submitted
                         | Some _ => msg_email_failed
                         end
                     | WithCustomer =>
                         match customer_error e with
                         | None => msg_submitted
                         | Some _ => msg_customer_failed
                         end
                     end |}
          end
      end ].
Proof.
  destruct (validateInput d) as [| reason] eqn:Hv.
  2: { apply responses_of_rejected. exact Hv. }
  destruct (db_error e) as [message |] eqn:He.
  { apply (@responses_of_store_failure _ _ _ _ _ _ message Hv He). }
  destruct v.
  - rewrite responses_admin_only by assumption.
    destruct (admin_error e); reflexivity.
  - rewrite responses_with_customer by assumption.
    destruct (customer_error e); reflexivity.
Qed.


(** X6. A request issues at most one [INSERT] and never touches the rows
    that are already stored: the table after the request is the table
    before it, followed by one new row for the inserted values when the
    store accepted them, and by nothing otherwise. *)
Theorem a_request_only_appends_what_it_inserted
    (sanitizeHtml : value -> jsstring) (emailUser : value)
    (v : deployment) (e : env) (d : submission) (db : database) :
  List.length
    (inserts (events_of (post_orders sanitizeHtml emailUser v e d) db)) <= 1
  /\ rows (database_after (post_orders sanitizeHtml emailUser v e d) db)
     = rows db
       ++ match db_error e with
          | Some _ => []
          | None =>
              List.map
                (fun p => {| row_id := N.succ (last_id db);
                             row_fields := p;
                             row_created_at := db_clock e |})
                (inserts
                   (events_of (post_orders sanitizeHtml emailUser v e d) db))
          end.
Proof.
  rewrite inserts_of_run, database_of_run.
  destruct (validateInput d), (db_error e); simpl;
    rewrite ?app_nil_r; split; auto.
Qed.

(** X7. Mails are attempted exactly when the order has been stored. The
    deployment that notifies the administrator only then makes one
    attempt, to the fixed administrator address; the other deployment
    makes two, the first to that address and the second to the sanitized
    email of the submission. Every attempt is sent from the configured
    account. *)
Theorem mails_go_out_exactly_for_stored_orders
    (sanitizeHtml : value -> jsstring) (emailUser : value)
    (v : deployment) (e : env) (d : submission) (db : database) :
  let evs := events_of (post_orders sanitizeHtml emailUser v e d) db in
  let db' := database_after (post_orders sanitizeHtml emailUser v e d) db in
  (mails evs <> [] <-> rows db' <> rows db)
  /\ (mails evs <> [] ->
      List.map to (mails evs)
      = match v with
        | AdminOnly => [js "trekuray@gmail.com"]
        | WithCustomer => [js "trekuray@gmail.com"; sanitizeHtml (email d)]
        end)
  /\ Forall (fun m => from m = emailUser) (mails evs).
Proof.
  intros evs db'. subst evs db'.
  rewrite mails_of_run, database_of_run.
  destruct (validateInput d), (db_error e); simpl.
  1, 3, 4: (split; [split; intros H; exfalso; apply H; reflexivity |];
            split; [intros H; exfalso; apply H; reflexivity | constructor]).
  split; [| split].
  - split; intros _; [| discriminate].
    intros H. apply (f_equal (@List.length row)) in H.
    rewrite length_app in H. simpl in H. lia.
  - intros _. destruct v; reflexivity.
  - destruct v; repeat constructor.
Qed.

Lemma mails_go_out_exactly_for_stored_orders_witness :
  List.map to
    (mails (events_of (post_orders escape_markup account WithCustomer
                         all_fine jane) empty_db))
  = [js "trekuray@gmail.com"; js "jane@example.com"].
Proof.
  destruct (mails_go_out_exactly_for_stored_orders escape_markup account
              WithCustomer all_fine jane empty_db) as (_ & H & _).
  apply H. vm_compute. discriminate.
Defined.

(** X8. The two deployments store alike and differ in the mail phase
    only: for the same request and the same collaborators they issue the
    same insert and leave the same database, the richer one attempts the
    administrator's mail of the simpler one followed by the customer's,
    and they answer alike unless the insert succeeded and a mail failed. *)
Theorem deployments_differ_in_the_mail_phase_only
    (sanitizeHtml : value -> jsstring) (emailUser : value)
    (e : env) (d : submission) (db : database) :
  let simple := post_orders sanitizeHtml emailUser AdminOnly e d in
  let richer := post_orders sanitizeHtml emailUser WithCustomer e d in
  inserts (events_of richer db) = inserts (events_of simple db)
  /\ database_after richer db = database_after simple db
  /\ (exists customer,
         mails (events_of richer db) = mails (events_of simple db) ++ customer
         /\ List.length customer <= 1)
  /\ (validateInput d <> Valid \/ db_error e <> None
      \/ (admin_error e = None /\ customer_error e = None) ->
      responses (events_of richer db) = responses (events_of simple db)).
Proof.
  intros simple richer. subst simple richer.
  rewrite !inserts_of_run, !database_of_run, !mails_of_run, !responses_of_run.
  repeat split.
  - destruct (validateInput d); [destruct (db_error e) |].
    + exists []. auto.
    + exists [mailOptionsCustomer emailUser (sanitized sanitizeHtml d)]. auto.
    + exists []. auto.
  - intros H. destruct (validateInput d); [| reflexivity].
    destruct (db_error e); [reflexivity |].
    destruct H as [H | [H | [-> ->]]]; [contradiction | contradiction |].
    reflexivity.
Qed.

Lemma deployments_differ_in_the_mail_phase_only_witness :
  responses
    (events_of (post_orders escape_markup account WithCustomer all_fine jane)
       empty_db)
  = responses
      (events_of (post_orders escape_markup account AdminOnly all_fine jane)
         empty_db).
Proof.
  destruct (deployments_differ_in_the_mail_phase_only escape_markup account
              all_fine jane empty_db) as (_ & _ & _ & H).
  apply H. right. right. split; reflexivity.
Defined.

(** X9. What is written with [console.error] is exactly the message of
    each collaborator failure that occurred, in the order the callbacks
    ran: nothing for a rejected body (a validation failure is reported to
    the caller only), the store's message for a failed insert, and after
    a successful insert the messages of the failed mails. *)
Theorem collaborator_failures_are_logged
    (sanitizeHtml : value -> jsstring) (emailUser : value)
    (v : deployment) (e : env) (d : submission) (db : database) :
  error_logs (events_of (post_orders sanitizeHtml emailUser v e d) db)
  = match validateInput d with
    | Invalid _ => []
    | Valid =>
        match db_error e with
        | Some message => [message]
        | None =>
            match v with
            | AdminOnly => occurred (admin_error e)
            | WithCustomer =>
                if customer_first e
                then occurred (customer_error e) ++ occurred (admin_error e)
                else occurred (admin_error e) ++ occurred (customer_error e)
            end
        end
    end.
Proof.
  unfold events_of.
  destruct (validateInput d) as [| reason] eqn:Hv.
  2: { rewrite (@run_invalid sanitizeHtml emailUser v e d db reason Hv).
       reflexivity. }
  destruct (db_error e) as [message |] eqn:He.
  { rewrite (@run_store_failure sanitizeHtml emailUser v e d db message Hv He).
    reflexivity. }
  destruct v.
  - rewrite (@run_admin_only sanitizeHtml emailUser e d db Hv He). simpl.
    destruct (admin_error e); reflexivity.
  - rewrite (@run_with_customer sanitizeHtml emailUser e d db Hv He). simpl.
    unfold admin_log, customer_outcome.
    destruct (customer_first e), (admin_error e), (customer_error e);
      reflexivity.
Qed.

(** X10. After validation only the sanitized values are used: two valid
    submissions with the same sanitized fields cause the same insert, the
    same stored table, the same mail attempts and the same response, so
    no raw field value reaches the database or a mail. *)
Theorem only_sanitized_values_leave_the_handler
    (sanitizeHtml : value -> jsstring) (emailUser : value)
    (v : deployment) (e : env) (d d' : submission) (db : database) :
  validateInput d = Valid ->
  validateInput d' = Valid ->
  sanitized sanitizeHtml d = sanitized sanitizeHtml d' ->
  let run := post_orders sanitizeHtml emailUser v e d in
  let run' := post_orders sanitizeHtml emailUser v e d' in
  inserts (events_of run db) = inserts (events_of run' db)
  /\ database_after run db = database_after run' db
  /\ mails (events_of run db) = mails (events_of run' db)
  /\ responses (events_of run db) = responses (events_of run' db).
Proof.
  intros Hv Hv' E run run'. subst run run'.
  rewrite !inserts_of_run, !database_of_run, !mails_of_run, !responses_of_run.
  rewrite Hv, Hv', E. auto.
Qed.

Lemma only_sanitized_values_leave_the_handler_witness :
  mails
    (events_of (post_orders (fun _ => js "redacted") account WithCustomer
                  all_fine jane) empty_db)
  = mails
      (events_of (post_orders (fun _ => js "redacted") account WithCustomer
                    all_fine blank_details) empty_db).
Proof.
  destruct (@only_sanitized_values_leave_the_handler
              (fun _ => js "redacted") account WithCustomer all_fine
              jane blank_details empty_db) as (_ & _ & H & _);
    [reflexivity | reflexivity | reflexivity | exact H].
Defined.
